(** * Verification of the adscanner reputation server core

    Shallow embedding of the server code of the repository:
    - [retryWithBackoff]        (server/src/utils/retry.ts)
    - [getRiskLevel], [router.post] of POST /api/check (server/src/routes/check.ts)
    - [getCachedResult], [setCachedResult] (server/src/services/cache.ts)
    - [getClientIp], [rateLimitMiddleware] (server/src/middleware/rateLimit.ts)

    JavaScript numbers used as scores are modelled as exact rationals [Q];
    millisecond timestamps and counters as [Z]. *)

From Stdlib Require Import QArith Lia Lqa.
From stdpp Require Import gmap strings list.

(* ================================================================= *)
(** ** Retry with exponential backoff *)

Module Retry.

(** Outcome of one awaited call: the promise resolves or rejects. *)
Inductive result (A E : Type) : Type :=
| Ok (v : A)
| Err (e : E).
Arguments Ok {A E} v.
Arguments Err {A E} e.

(** Observable effects of the wrapper: invoking the operation (with the
    0-based attempt index) and sleeping [delay(ms)]. *)
Inductive event : Type :=
| Call (attempt : nat)
| Sleep (ms : Z).

(** [RetryOptions] after destructuring with its defaults. *)
Record RetryOptions (E : Type) := {
  retries : nat;
  initialDelayMs : Z;
  factor : Z;
  shouldRetry : E -> bool
}.
Arguments retries {E} r.
Arguments initialDelayMs {E} r.
Arguments factor {E} r.
Arguments shouldRetry {E} r.

(** [retries = 3, initialDelayMs = 1000, factor = 2, shouldRetry = () => true] *)
Definition default_options {E : Type} : RetryOptions E :=
  {| retries := 3; initialDelayMs := 1000%Z; factor := 2%Z;
     shouldRetry := fun _ => true |}.

Section Loop.
Context {A E : Type}.

(** The [for (let attempt = 0; attempt <= retries; attempt++)] loop;
    [left] is [retries - attempt], the number of iterations still allowed
    after this one.  The operation is given as the outcome of each call. *)
Fixpoint retry_loop (operation : nat -> result A E) (opts : RetryOptions E)
    (left attempt : nat) : result A E * list event :=
  match operation attempt with
  | Ok v => (Ok v, [Call attempt])
  | Err err =>
      match left with
      | O => (Err err, [Call attempt])           (* attempt === retries *)
      | S left' =>
          if negb (shouldRetry opts err) then (Err err, [Call attempt])
          else
            let delayMs := (initialDelayMs opts * factor opts ^ Z.of_nat attempt)%Z in
            let '(r, tr) := retry_loop operation opts left' (S attempt) in
            (r, Call attempt :: Sleep delayMs :: tr)
      end
  end.

Definition retryWithBackoff (operation : nat -> result A E) (opts : RetryOptions E)
    : result A E * list event :=
  retry_loop operation opts (retries opts) 0.

End Loop.

(** Number of calls to the operation recorded in a trace. *)
Fixpoint calls (tr : list event) : nat :=
  match tr with
  | [] => O
  | Call _ :: tr' => S (calls tr')
  | Sleep _ :: tr' => calls tr'
  end.

(** Sleep durations recorded in a trace, in order. *)
Definition sleeps (tr : list event) : list Z :=
  flat_map (fun ev => match ev with Call _ => [] | Sleep ms => [ms] end) tr.

End Retry.

(* ================================================================= *)
(** ** Data model shared by the adapters, the cache and the route *)

Module Types.

Open Scope Q_scope.

(** Errors of server/src/services/errors.ts and server/src/utils/retry
    callers: [RateLimitError] and [InvalidDomainError] are [ApiError]s
    (status 429 and 400); the network and timeout errors are plain
    [Error] subclasses; [GenericError] is any other thrown [Error]. *)
Inductive error : Type :=
| RateLimitError (message : string)
| InvalidDomainError (message : string)
| NetworkError (message : string)
| TimeoutError (message : string)
| GenericError (message : string).

(** [error.statusCode] for [error instanceof ApiError]. *)
Definition apiStatus (e : error) : option Z :=
  match e with
  | RateLimitError _ => Some 429%Z
  | InvalidDomainError _ => Some 400%Z
  | _ => None
  end.

(** A normalized adapter result ([VirusTotalResult] or
    [GoogleSafeBrowsingResult]): the route and the cache read only its
    [domain] and [riskScore]; the remaining fields are pass-through. *)
Record Report := mkReport {
  rep_domain : string;
  riskScore : Q
}.

Inductive RiskLevel : Type := Safe | Low | Medium | High | Dangerous.

(** JavaScript [a < b] on numbers. *)
Definition Qltb (a b : Q) : bool := negb (Qle_bool b a).

(** [getRiskLevel] of the check route. *)
Definition getRiskLevel (score : Q) : RiskLevel :=
  if Qltb score 20 then Safe
  else if Qltb score 40 then Low
  else if Qltb score 60 then Medium
  else if Qltb score 80 then High
  else Dangerous.

End Types.

(* ================================================================= *)
(** ** SQLite-backed cache (services/cache.ts over the url_checks table) *)

Module Cache.
Import Types.

(** One row of [url_checks]; the JSON columns are modelled by the value
    that was serialized ([JSON.parse (JSON.stringify r)] gives back the
    fields the route reads). *)
Record row := mkRow {
  id : nat;
  domain : string;
  virustotal_score : option Q;
  virustotal_data : option Report;
  googlesafebrowsing_score : option Q;
  googlesafebrowsing_data : option Report;
  combined_risk_score : Q;
  created_at : Z;
  expires_at : Z
}.

(** The table in rowid order, and the AUTOINCREMENT counter. *)
Record db := mkDb {
  rows : list row;
  next_id : nat
}.

Definition DEFAULT_TTL : Z := (24 * 60 * 60 * 1000)%Z.

Record CachedCheck := mkCachedCheck {
  cc_domain : string;
  virusTotalResult : option Report;
  googleSafeBrowsingResult : option Report;
  combinedRiskScore : Q;
  cachedAt : Z;
  cc_expiresAt : Z
}.

(** [SELECT * FROM url_checks WHERE domain = ?] *)
Definition select_domain (d : string) (t : db) : list row :=
  filter (fun r => domain r = d) (rows t).

(** [isExpired]: [now > cachedCheck.expiresAt] *)
Definition isExpired (now : Z) (r : row) : bool := Z.ltb (expires_at r) now.

(** [getCachedResult], for the domain [extractDomain(url)], at time [now]. *)
Definition getCachedResult (t : db) (d : string) (now : Z) : option CachedCheck :=
  match select_domain d t with
  | [] => None
  | r :: _ =>
      if isExpired now r then None
      else Some {| cc_domain := domain r;
                   virusTotalResult := virustotal_data r;
                   googleSafeBrowsingResult := googlesafebrowsing_data r;
                   combinedRiskScore := combined_risk_score r;
                   cachedAt := created_at r;
                   cc_expiresAt := expires_at r |}
  end.

(** [DELETE FROM url_checks WHERE domain = ?] *)
Definition delete_domain (d : string) (t : db) : db :=
  {| rows := filter (fun r => domain r <> d) (rows t); next_id := next_id t |}.

(** [INSERT INTO url_checks ...]: fails on the [domain TEXT NOT NULL UNIQUE]
    constraint, otherwise appends a row with the next AUTOINCREMENT id. *)
Definition insert_row (d : string) (vs : option Q) (vd : option Report)
    (gs : option Q) (gd : option Report) (c : Q) (ca ea : Z) (t : db) : option db :=
  match select_domain d t with
  | _ :: _ => None
  | [] => Some {| rows := rows t ++ [mkRow (next_id t) d vs vd gs gd c ca ea];
                  next_id := S (next_id t) |}
  end.

(** [setCachedResult] at time [now]: delete then insert; a failing insert
    is caught and swallowed, leaving the table as after the delete. *)
Definition setCachedResult (t : db) (d : string) (vt gsb : option Report)
    (combined : Q) (now : Z) : db :=
  let expiresAt := (now + DEFAULT_TTL)%Z in
  let t1 := delete_domain d t in
  match insert_row d (option_map riskScore vt) vt (option_map riskScore gsb) gsb
          combined now expiresAt t1 with
  | Some t2 => t2
  | None => t1
  end.

End Cache.

(* ================================================================= *)
(** ** Adapters' error handling and the POST /api/check route *)

Module Check.
Import Types Retry.
Open Scope Q_scope.

(** A [PromiseSettledResult]. *)
Inductive settled : Type :=
| Fulfilled (value : Report)
| Rejected (reason : error).

(** The [shouldRetry] predicate of the Safe Browsing adapter:
    [error instanceof NetworkError || error instanceof TimeoutError]. *)
Definition gsbShouldRetry (e : error) : bool :=
  match e with
  | NetworkError _ | TimeoutError _ => true
  | _ => false
  end.

(** [{ retries: 2, shouldRetry }] with the other options defaulted. *)
Definition gsbRetryOptions : RetryOptions error :=
  {| retries := 2; initialDelayMs := 1000%Z; factor := 2%Z;
     shouldRetry := gsbShouldRetry |}.

(** The outer [try/catch] of the Safe Browsing [checkUrl] (API key set):
    the retried request either yields the report or an error; a
    [RateLimitError] is re-thrown, any other error falls back to
    [getMockResult(domain)], given here as [mock]. *)
Definition gsbCatch (outcome : result Report error) (mock : Report) : settled :=
  match outcome with
  | Ok rep => Fulfilled rep
  | Err (RateLimitError m) => Rejected (RateLimitError m)
  | Err _ => Fulfilled mock
  end.

(** [checkUrl] of the Safe Browsing adapter with an API key: the request
    is [request attempt] for each attempt of [retryWithBackoff]. *)
Definition gsbCheckUrl (request : nat -> result Report error) (mock : Report)
    : settled * list event :=
  let '(r, tr) := retryWithBackoff request gsbRetryOptions in
  (gsbCatch r mock, tr).

(** [settled.status === 'fulfilled' ? settled.value : null] *)
Definition settledValue (s : settled) : option Report :=
  match s with
  | Fulfilled v => Some v
  | Rejected _ => None
  end.

(** An entry of [CheckResponse.sources]. *)
Record SourceResult := mkSourceResult {
  source : string;
  score : Q;
  unavailable : bool   (* [details: { error: 'Service unavailable' }] *)
}.

Definition buildVirusTotalSource (r : option Report) : SourceResult :=
  match r with
  | Some rep => mkSourceResult "virustotal" (riskScore rep) false
  | None => mkSourceResult "virustotal" 0 true
  end.

Definition buildGoogleSafeBrowsingSource (r : option Report) : SourceResult :=
  match r with
  | Some rep => mkSourceResult "google-safe-browsing" (riskScore rep) false
  | None => mkSourceResult "google-safe-browsing" 0 true
  end.

(** [if (result) scores.push(result.riskScore)] for both sources. *)
Definition collectScores (vt gsb : option Report) : list Q :=
  match vt with Some r => [riskScore r] | None => [] end ++
  match gsb with Some r => [riskScore r] | None => [] end.

(** [scores.reduce((a, b) => a + b, 0) / scores.length] *)
Definition meanScore (scores : list Q) : Q :=
  fold_left Qplus scores 0 / inject_Z (Z.of_nat (length scores)).

Inductive Response : Type :=
| CheckResponse (url : string) (riskScore : Q) (riskLevel : RiskLevel)
    (sources : list SourceResult) (cached : bool) (checkedAt : Z)
| ErrorResponse (status : Z) (message : string).

(** Score and level of a cached entry (the cache-hit branch). *)
Definition hitResponse (url : string) (c : Cache.CachedCheck) : Response :=
  let vt := Cache.virusTotalResult c in
  let gsb := Cache.googleSafeBrowsingResult c in
  let s := meanScore (collectScores vt gsb) in
  CheckResponse url s (getRiskLevel s)
    [buildVirusTotalSource vt; buildGoogleSafeBrowsingSource gsb] true (Cache.cachedAt c).

(** The [try] block of [router.post] for a validated [url] whose hostname
    is [domain], at time [now], with [vtSettled] and [gsbSettled] the
    settled outcomes of the two concurrent [checkUrl] calls of the
    [Promise.allSettled]. Returns the response and the table afterwards.
    Nothing in the block throws: [getCachedResult] and [setCachedResult]
    catch their own errors and [Promise.allSettled] never rejects. *)
Definition post (t : Cache.db) (now : Z) (url domain : string)
    (vtSettled gsbSettled : settled) : Response * Cache.db :=
  match Cache.getCachedResult t domain now with
  | Some cached => (hitResponse url cached, t)
  | None =>
      let vt := settledValue vtSettled in
      let gsb := settledValue gsbSettled in
      match vt, gsb with
      | None, None => (ErrorResponse 502 "All reputation sources failed", t)
      | _, _ =>
          let s := meanScore (collectScores vt gsb) in
          let t' := Cache.setCachedResult t domain vt gsb s now in
          (CheckResponse url s (getRiskLevel s)
             [buildVirusTotalSource vt; buildGoogleSafeBrowsingSource gsb] false now, t')
      end
  end.

End Check.

(* ================================================================= *)
(** ** Ingress rate limiter (middleware/rateLimit.ts) *)

Module RateLimit.
Open Scope Z_scope.

Record RateLimitEntry := mkEntry {
  count : Z;
  resetTime : Z
}.

Definition LIMIT : Z := 60.
Definition WINDOW : Z := 60 * 1000.

(** Request headers, with the lowercase names under which [c.req.header]
    finds them. *)
Definition headers := list (string * string).

(** [c.req.header(name)]: the first header of that name, or [undefined]. *)
Fixpoint header (h : headers) (name : string) : option string :=
  match h with
  | [] => None
  | (n, v) :: h' => if String.eqb n name then Some v else header h' name
  end.

(** Truthiness of a [string | undefined] under [||]: [''] is falsy. *)
Definition truthy (o : option string) : option string :=
  match o with
  | Some s => if String.eqb s "" then None else Some s
  | None => None
  end.

(** [c.req.header('x-forwarded-for') || c.req.header('x-real-ip') || 'unknown'] *)
Definition getClientIp (h : headers) : string :=
  match truthy (header h "x-forwarded-for") with
  | Some ip => ip
  | None =>
      match truthy (header h "x-real-ip") with
      | Some ip => ip
      | None => "unknown"
      end
  end.

(** [Math.ceil(x / 1000)] for an integer [x]. *)
Definition ceil_div1000 (x : Z) : Z := - ((- x) / 1000).

Inductive verdict : Type :=
| Next                                    (* [await next()] *)
| TooMany (retryAfter limit : Z).         (* status 429 body and Retry-After *)

(** The three [X-RateLimit-*] headers set on every response, and the verdict. *)
Record outcome := mkOutcome {
  limitHeader : Z;
  remainingHeader : Z;
  resetHeader : Z;
  result : verdict
}.

(** [rateLimitMiddleware] at time [now] on a request with headers [h]. *)
Definition rateLimitMiddleware (store : gmap string RateLimitEntry) (now : Z)
    (h : headers) : gmap string RateLimitEntry * outcome :=
  let clientIp := getClientIp h in
  let '(entry, store1) :=
    match store !! clientIp with
    | Some e =>
        if Z.ltb (resetTime e) now
        then (mkEntry 0 (now + WINDOW), delete clientIp store)
        else (e, store)
    | None => (mkEntry 0 (now + WINDOW), store)
    end in
  let entry' := mkEntry (count entry + 1) (resetTime entry) in
  let store2 := <[clientIp := entry']> store1 in
  let remaining := Z.max 0 (LIMIT - count entry') in
  let resetIn := ceil_div1000 (resetTime entry' - now) in
  (store2,
   mkOutcome LIMIT remaining (resetTime entry')
     (if Z.ltb LIMIT (count entry') then TooMany resetIn LIMIT else Next)).

(** A sequence of requests [(now, headers)] through the middleware. *)
Fixpoint run (store : gmap string RateLimitEntry) (reqs : list (Z * headers))
    : gmap string RateLimitEntry * list outcome :=
  match reqs with
  | [] => (store, [])
  | (now, h) :: reqs' =>
      let '(store', o) := rateLimitMiddleware store now h in
      let '(store'', os) := run store' reqs' in
      (store'', o :: os)
  end.

Definition allowed (o : outcome) : bool :=
  match result o with Next => true | TooMany _ _ => false end.

End RateLimit.

(* ================================================================= *)
(** ** The two reputation adapters (services/virusTotal.ts and
    services/googleSafeBrowsing.ts) *)

Module Adapters.
Import Types Retry Check.
Open Scope Z_scope.

(** [s.startsWith(p)] *)
Fixpoint prefixb (p s : string) : bool :=
  match p, s with
  | EmptyString, _ => true
  | String a p', String b s' => Ascii.eqb a b && prefixb p' s'
  | String _ _, EmptyString => false
  end.

(** [s.includes(sub)] *)
Fixpoint includes (s sub : string) : bool :=
  prefixb sub s ||
  match s with
  | EmptyString => false
  | String _ s' => includes s' sub
  end.

(** [domain.split('').reduce((acc, char) => acc + char.charCodeAt(0), 0)];
    a hostname from [new URL(...)] is ASCII (IDNs are punycoded), so each
    UTF-16 code unit is the character's ASCII code. *)
Fixpoint domainHash (d : string) : Z :=
  match d with
  | EmptyString => 0
  | String c d' => Z.of_nat (Ascii.nat_of_ascii c) + domainHash d'
  end.

Definition highRiskKeywords : list string :=
  ["ads"; "doubleclick"; "adserver"; "adnetwork"; "click"; "tracking";
   "dangerous"; "risky"].

(** [highRiskKeywords.some(keyword => domain.includes(keyword))] *)
Definition isHighRisk (d : string) : bool :=
  existsb (includes d) highRiskKeywords.

(** [domain.includes('example') || domain.includes('test') || domain.includes('medium')] *)
Definition isMediumRisk (d : string) : bool :=
  includes d "example" || includes d "test" || includes d "medium".

(** The HTTP exchange of one [fetch]: aborted by the timeout controller,
    rejected by [fetch] itself, or a response with a status and a body
    that is either invalid JSON ([None]) or the decoded payload. *)
Inductive fetchOutcome (B : Type) : Type :=
| Aborted
| FetchFailed
| HttpResponse (status : Z) (body : option B).
Arguments Aborted {B}.
Arguments FetchFailed {B}.
Arguments HttpResponse {B} status body.

(** [response.ok] *)
Definition ok_status (status : Z) : bool := (200 <=? status) && (status <=? 299).

(** --- VirusTotal --- *)

(** [calculateRiskScore]: [(detectionCount / enginesCount) * 100], or 0
    without engines. *)
Definition calculateRiskScore (detectionCount enginesCount : Z) : Q :=
  if enginesCount =? 0 then 0%Q
  else (inject_Z detectionCount / inject_Z enginesCount * 100)%Q.

(** [mockDetectionCount] of the VirusTotal [getMockResult]. *)
Definition vtMockDetections (d : string) : Z :=
  if isHighRisk d then 30 + domainHash d mod 40
  else if isMediumRisk d then 15 + domainHash d mod 20
  else domainHash d mod 11.

(** The VirusTotal [getMockResult] (88 engines). *)
Definition vtGetMockResult (d : string) : Report :=
  mkReport d (calculateRiskScore (vtMockDetections d) 88).

(** [last_analysis_stats]; a missing count is [undefined]. *)
Record vtStats := mkVtStats {
  malicious : option Z;
  suspicious : option Z;
  undetected : option Z;
  harmless : option Z
}.

(** The decoded VirusTotal payload: [data.error?.code], and
    [data.data?.attributes] (absent, or present with optional stats). *)
Record vtBody := mkVtBody {
  vb_error : option string;
  vb_attributes : option (option vtStats)
}.

(** [x || 0] for a count. *)
Definition or0 (x : option Z) : Z :=
  match x with Some n => n | None => 0 end.

Definition vtDetectionCount (st : vtStats) : Z := or0 (malicious st) + or0 (suspicious st).
Definition vtEnginesCount (st : vtStats) : Z :=
  or0 (malicious st) + or0 (suspicious st) + or0 (undetected st) + or0 (harmless st).

(** The VirusTotal [checkUrl] on [domain], with or without an API key;
    every [throw] other than the [RateLimitError] lands in the [catch],
    which falls back to the mock. *)
Definition vtCheckUrl (hasKey : bool) (resp : fetchOutcome vtBody) (d : string) : settled :=
  if negb hasKey then Fulfilled (vtGetMockResult d) else
  match resp with
  | Aborted | FetchFailed => Fulfilled (vtGetMockResult d)
  | HttpResponse status body =>
      if status =? 429 then Rejected (RateLimitError "VirusTotal API rate limit exceeded")
      else if status =? 404 then Fulfilled (vtGetMockResult d)
      else if negb (ok_status status) then Fulfilled (vtGetMockResult d)
      else
        match body with
        | None => Fulfilled (vtGetMockResult d)
        | Some b =>
            match vb_error b with
            | Some _ => Fulfilled (vtGetMockResult d)
            | None =>
                match vb_attributes b with
                | None => Fulfilled (vtGetMockResult d)
                | Some ost =>
                    let st := match ost with
                              | Some st => st
                              | None => mkVtStats (Some 0) (Some 0) (Some 0) (Some 0)
                              end in
                    Fulfilled (mkReport d (calculateRiskScore (vtDetectionCount st)
                                                              (vtEnginesCount st)))
                end
            end
        end
  end.

(** --- Google Safe Browsing --- *)

Definition invertTrustToRiskScore (trustScore : Z) : Z := 100 - trustScore.

(** [trustScore] of the Safe Browsing [getMockResult]. *)
Definition gsbMockTrust (d : string) : Z :=
  if isHighRisk d then 10 + domainHash d mod 20
  else if isMediumRisk d then 40 + domainHash d mod 20
  else 70 + domainHash d mod 25.

Definition gsbGetMockResult (d : string) : Report :=
  mkReport d (inject_Z (invertTrustToRiskScore (gsbMockTrust d))).

(** [trustScore] from the [threatType]s of [data.matches || []]. *)
Definition gsbTrust (threatTypes : list string) : Z :=
  match threatTypes with
  | [] => 90
  | _ =>
      if existsb (String.eqb "MALWARE") threatTypes then 10
      else if existsb (String.eqb "SOCIAL_ENGINEERING") threatTypes then 20
      else if existsb (String.eqb "UNWANTED_SOFTWARE") threatTypes then 30
      else 40
  end.

Definition gsbReport (d : string) (threatTypes : list string) : Report :=
  mkReport d (inject_Z (invertTrustToRiskScore (gsbTrust threatTypes))).

(** One attempt of the retried operation: the decoded body is the list
    of the matches' [threatType]s. An abort becomes a [TimeoutError], a
    5xx a [NetworkError]; a [fetch] rejection or an invalid JSON body is
    re-thrown as it is. *)
Definition gsbAttempt (resp : fetchOutcome (list string)) : result (list string) error :=
  match resp with
  | Aborted => Err (TimeoutError "Safe Browsing API timeout")
  | FetchFailed => Err (GenericError "fetch failed")
  | HttpResponse status body =>
      if status =? 429 then Err (RateLimitError "Google Safe Browsing API rate limit exceeded")
      else if 500 <=? status then Err (NetworkError "Safe Browsing server error")
      else if negb (ok_status status) then Err (GenericError "Safe Browsing API error")
      else match body with
           | Some m => Ok m
           | None => Err (GenericError "invalid JSON")
           end
  end.

Definition map_result {A B E : Type} (f : A -> B) (r : result A E) : result B E :=
  match r with Ok v => Ok (f v) | Err e => Err e end.

(** The Safe Browsing [checkUrl] on [domain]: [responses k] is what the
    [k]-th [fetch] gives. Returns the settled outcome and the trace of
    fetches and sleeps. *)
Definition gsbCheckUrlHttp (hasKey : bool) (responses : nat -> fetchOutcome (list string))
    (d : string) : settled * list event :=
  if negb hasKey then (Fulfilled (gsbGetMockResult d), [])
  else
    let '(r, tr) := retryWithBackoff (fun k => gsbAttempt (responses k)) gsbRetryOptions in
    (gsbCatch (map_result (gsbReport d) r) (gsbGetMockResult d), tr).

End Adapters.

(* ================================================================= *)
(** ** The periodic sweep of the ingress limiter *)

Module Sweep.
Import RateLimit.

(** The [setInterval] callback: delete every entry with
    [now > entry.resetTime + WINDOW]. *)
Definition sweep (store : gmap string RateLimitEntry) (now : Z) : gmap string RateLimitEntry :=
  filter (fun ke => ~ (resetTime ke.2 + WINDOW < now)%Z) store.

End Sweep.

(* ================================================================= *)
(** * Properties *)

Module RetryFacts.
Import Retry.

Section AlwaysRetryable.
Context {A E : Type}.
Variables (op : nat -> result A E) (opts : RetryOptions E) (errs : nat -> E).
Hypothesis Hfail : forall k, op k = Err (errs k).
Hypothesis Hretry : forall k, shouldRetry opts (errs k) = true.

Lemma retry_loop_all_fail (left attempt : nat) :
  fst (retry_loop op opts left attempt) = Err (errs (left + attempt)) /\
  calls (snd (retry_loop op opts left attempt)) = S left /\
  sleeps (snd (retry_loop op opts left attempt)) =
    map (fun i => (initialDelayMs opts * factor opts ^ Z.of_nat i)%Z) (seq attempt left).
Proof.
  revert attempt; induction left as [|left IH]; intros attempt; simpl; rewrite Hfail.
  - simpl. auto.
  - rewrite Hretry. simpl.
    destruct (IH (S attempt)) as (H1 & H2 & H3).
    destruct (retry_loop op opts left (S attempt)) as [r tr] eqn:Eloop; simpl in *.
    split; [rewrite H1; do 2 f_equal; lia|]. split; [by rewrite H2|].
    by rewrite H3.
Qed.

End AlwaysRetryable.

End RetryFacts.

Module RetryClaims.
Import Retry RetryFacts.

(** C7: an operation whose first call fails with an error that
    [shouldRetry] classifies as non-retryable is invoked exactly once,
    the wrapper never sleeps, and it rejects with that same error. *)
Theorem retry_non_retryable_once {A E : Type} (op : nat -> result A E)
    (opts : RetryOptions E) (e : E)
    (Hfirst : op 0 = Err e) (Hnr : shouldRetry opts e = false) :
  retryWithBackoff op opts = (Err e, [Call 0]).
Proof.
  unfold retryWithBackoff.
  destruct (retries opts) as [|n]; simpl; rewrite Hfirst; [done|].
  by rewrite Hnr.
Qed.

(** C8: an operation that fails with a retryable error on every call is
    invoked [retries + 1] times, the wrapper sleeps
    [initialDelayMs * factor ^ attempt] after each failed attempt but the
    last, and it rejects with the error of the last attempt; with
    [initialDelayMs = 1000], [factor = 2] and three attempts
    ([retries = 2]) the sleeps are 1000 ms then 2000 ms. *)
Theorem retry_backoff_exhausts {A E : Type} (op : nat -> result A E)
    (opts : RetryOptions E) (errs : nat -> E)
    (Hfail : forall k, op k = Err (errs k))
    (Hretry : forall k, shouldRetry opts (errs k) = true) :
  fst (retryWithBackoff op opts) = Err (errs (retries opts)) /\
  calls (snd (retryWithBackoff op opts)) = S (retries opts) /\
  sleeps (snd (retryWithBackoff op opts)) =
    map (fun i => (initialDelayMs opts * factor opts ^ Z.of_nat i)%Z) (seq 0 (retries opts)) /\
  (initialDelayMs opts = 1000%Z -> factor opts = 2%Z -> retries opts = 2 ->
   sleeps (snd (retryWithBackoff op opts)) = [1000%Z; 2000%Z]).
Proof.
  unfold retryWithBackoff.
  destruct (retry_loop_all_fail op opts errs Hfail Hretry (retries opts) 0) as (H1 & H2 & H3).
  rewrite Nat.add_0_r in H1.
  split; [done|]. split; [done|]. split; [done|].
  intros Hd Hf Hr. rewrite H3, Hd, Hf, Hr. reflexivity.
Qed.

End RetryClaims.

Module CheckFacts.
Import Types Check.
Open Scope Q_scope.

Lemma Qltb_true (a b : Q) : Qltb a b = true <-> a < b.
Proof.
  unfold Qltb. rewrite negb_true_iff.
  split; intros H.
  - apply Qnot_le_lt. intros Hle. apply Qle_bool_iff in Hle. congruence.
  - destruct (Qle_bool b a) eqn:Hb; [|done].
    apply Qle_bool_iff in Hb. exfalso. apply (Qlt_not_le a b); done.
Qed.

Lemma Qltb_false (a b : Q) : Qltb a b = false <-> b <= a.
Proof.
  unfold Qltb. rewrite negb_false_iff. apply Qle_bool_iff.
Qed.

Lemma getRiskLevel_cases (s : Q) :
  (s < 20 /\ getRiskLevel s = Safe) \/
  (20 <= s < 40 /\ getRiskLevel s = Low) \/
  (40 <= s < 60 /\ getRiskLevel s = Medium) \/
  (60 <= s < 80 /\ getRiskLevel s = High) \/
  (80 <= s /\ getRiskLevel s = Dangerous).
Proof.
  unfold getRiskLevel.
  destruct (Qltb s 20) eqn:H1; [left; apply Qltb_true in H1; done|].
  apply Qltb_false in H1.
  destruct (Qltb s 40) eqn:H2; [right; left; apply Qltb_true in H2; done|].
  apply Qltb_false in H2.
  destruct (Qltb s 60) eqn:H3; [right; right; left; apply Qltb_true in H3; done|].
  apply Qltb_false in H3.
  destruct (Qltb s 80) eqn:H4; [right; right; right; left; apply Qltb_true in H4; done|].
  apply Qltb_false in H4. right; right; right; right. done.
Qed.

(** The reports of the sources whose call fulfilled, in source order. *)
Definition succeeded (ss : list settled) : list Report := omap settledValue ss.

(** The arithmetic mean of the risk scores of a list of reports, as the
    spec words it: their sum over their number. *)
Definition mean_of_reports (rs : list Report) : Q :=
  fold_right Qplus 0 (map riskScore rs) / inject_Z (Z.of_nat (length rs)).

Lemma fold_left_Qplus_acc (l : list Q) (a : Q) :
  fold_left Qplus l a == a + fold_right Qplus 0 l.
Proof.
  revert a; induction l as [|x l IH]; intros a; simpl.
  - ring.
  - rewrite IH. ring.
Qed.

Lemma collectScores_succeeded (vtS gsbS : settled) :
  collectScores (settledValue vtS) (settledValue gsbS) =
  map riskScore (succeeded [vtS; gsbS]).
Proof. by destruct vtS, gsbS. Qed.

Lemma meanScore_mean (vtS gsbS : settled) :
  meanScore (collectScores (settledValue vtS) (settledValue gsbS)) ==
  mean_of_reports (succeeded [vtS; gsbS]).
Proof.
  unfold meanScore, mean_of_reports. rewrite collectScores_succeeded, length_map.
  rewrite fold_left_Qplus_acc. apply Qmult_comp; [ring|reflexivity].
Qed.

End CheckFacts.

Module CheckClaims.
Import Types Check CheckFacts.
Open Scope Q_scope.

(** C3: [getRiskLevel] uses the fixed bands with inclusive lower and
    exclusive upper bounds: safe below 20, low in [20,40), medium in
    [40,60), high in [60,80), dangerous from 80 on; two sources scoring
    10 and 20 combine to 15, which is safe. *)
Theorem getRiskLevel_bands (s : Q) :
  (getRiskLevel s = Safe <-> s < 20) /\
  (getRiskLevel s = Low <-> 20 <= s < 40) /\
  (getRiskLevel s = Medium <-> 40 <= s < 60) /\
  (getRiskLevel s = High <-> 60 <= s < 80) /\
  (getRiskLevel s = Dangerous <-> 80 <= s) /\
  (forall d1 d2 : string,
     meanScore (collectScores (Some (mkReport d1 10)) (Some (mkReport d2 20))) == 15 /\
     getRiskLevel (meanScore (collectScores (Some (mkReport d1 10)) (Some (mkReport d2 20))))
       = Safe).
Proof.
  split; [|split; [|split; [|split; [|split]]]];
    try (intros d1 d2; split; vm_compute; reflexivity);
    destruct (getRiskLevel_cases s) as [[Hs Hl]|[[Hs Hl]|[[Hs Hl]|[[Hs Hl]|[Hs Hl]]]]];
    rewrite Hl; split; intros H; try discriminate; try done; try lra.
Qed.

(** C2: on a cache miss where at least one source call fulfilled, the
    route answers with a fresh (not cached) result whose riskScore is the
    arithmetic mean of the scores of the fulfilled sources only, and whose
    riskLevel is derived from it; in particular one rejected source and
    one source scoring 70 give riskScore 70 and riskLevel high. *)
Theorem post_mean_over_succeeded (t : Cache.db) (now : Z) (url dom : string)
    (vtS gsbS : settled)
    (Hmiss : Cache.getCachedResult t dom now = None)
    (Hone : succeeded [vtS; gsbS] <> []) :
  (exists s lvl srcs t',
     post t now url dom vtS gsbS = (CheckResponse url s lvl srcs false now, t') /\
     s == mean_of_reports (succeeded [vtS; gsbS]) /\ lvl = getRiskLevel s) /\
  (forall (e : error) (d : string), exists s srcs t',
     post t now url dom (Rejected e) (Fulfilled (mkReport d 70))
       = (CheckResponse url s High srcs false now, t') /\ s == 70) /\
  (forall (e : error) (d : string), exists s srcs t',
     post t now url dom (Fulfilled (mkReport d 70)) (Rejected e)
       = (CheckResponse url s High srcs false now, t') /\ s == 70).
Proof.
  unfold post; rewrite Hmiss. split; [|split].
  - pose proof (meanScore_mean vtS gsbS) as Hm.
    destruct vtS as [v|e1], gsbS as [g|e2]; [| | |done];
      (eexists _, _, _, _; split; [reflexivity|]; split; [exact Hm|done]).
  - intros e d. simpl. eexists _, _, _. split; [reflexivity|]. vm_compute. reflexivity.
  - intros e d. simpl. eexists _, _, _. split; [reflexivity|]. vm_compute. reflexivity.
Qed.

(** C6: on a cache miss where both source calls rejected, the route
    answers 502 "All reputation sources failed" and leaves the cache
    table unchanged. *)
Theorem post_all_sources_failed (t : Cache.db) (now : Z) (url dom : string)
    (e1 e2 : error)
    (Hmiss : Cache.getCachedResult t dom now = None) :
  post t now url dom (Rejected e1) (Rejected e2)
    = (ErrorResponse 502 "All reputation sources failed", t).
Proof. unfold post. by rewrite Hmiss. Qed.

End CheckClaims.

Module CacheFacts.
Import Types Cache.

Lemma select_delete_same (d : string) (t : db) :
  select_domain d (delete_domain d t) = [].
Proof.
  unfold select_domain, delete_domain; simpl.
  induction (rows t) as [|r rs IH]; [done|].
  rewrite filter_cons. case_decide; [|done].
  rewrite filter_cons. case_decide; [congruence|done].
Qed.

Lemma select_delete_other (d d' : string) (t : db) :
  d' <> d -> select_domain d' (delete_domain d t) = select_domain d' t.
Proof.
  intros Hne. unfold select_domain, delete_domain; simpl.
  induction (rows t) as [|r rs IH]; [done|].
  rewrite !filter_cons. case_decide as Hd.
  - rewrite filter_cons. case_decide; [by f_equal|done].
  - case_decide; [congruence|done].
Qed.

(** The row written by [setCachedResult] on a table whose next id is [i]. *)
Definition fresh_row (i : nat) (d : string) (vt gsb : option Report) (c : Q) (now : Z) : row :=
  mkRow i d (option_map riskScore vt) vt (option_map riskScore gsb) gsb c now
    (now + DEFAULT_TTL)%Z.

Lemma setCachedResult_eq (t : db) (d : string) (vt gsb : option Report) (c : Q) (now : Z) :
  setCachedResult t d vt gsb c now =
  {| rows := rows (delete_domain d t) ++ [fresh_row (next_id t) d vt gsb c now];
     next_id := S (next_id t) |}.
Proof.
  unfold setCachedResult, insert_row. cbv zeta. rewrite select_delete_same. reflexivity.
Qed.

Lemma select_set_same (t : db) (d : string) (vt gsb : option Report) (c : Q) (now : Z) :
  select_domain d (setCachedResult t d vt gsb c now) = [fresh_row (next_id t) d vt gsb c now].
Proof.
  rewrite setCachedResult_eq. unfold select_domain at 1; cbn [rows].
  rewrite filter_app. fold (select_domain d (delete_domain d t)).
  rewrite select_delete_same, filter_cons, filter_nil. case_decide; [done|].
  exfalso; done.
Qed.

Lemma select_set_other (t : db) (d d' : string) (vt gsb : option Report) (c : Q) (now : Z) :
  d' <> d ->
  select_domain d' (setCachedResult t d vt gsb c now) = select_domain d' t.
Proof.
  intros Hne. rewrite setCachedResult_eq. unfold select_domain at 1; cbn [rows].
  rewrite filter_app. fold (select_domain d' (delete_domain d t)).
  rewrite select_delete_other by done. rewrite filter_cons, filter_nil.
  case_decide as Hd; [simpl in Hd; congruence|]. by rewrite app_nil_r.
Qed.

(** The arguments of one [setCachedResult] call for a fixed domain. *)
Record PutCall := mkPutCall {
  put_vt : option Report;
  put_gsb : option Report;
  put_combined : Q;
  put_now : Z
}.

Definition apply_put (d : string) (t : db) (p : PutCall) : db :=
  setCachedResult t d (put_vt p) (put_gsb p) (put_combined p) (put_now p).

Lemma puts_other (d d' : string) (ps : list PutCall) (t : db) :
  d' <> d -> select_domain d' (fold_left (apply_put d) ps t) = select_domain d' t.
Proof.
  intros Hne. revert t; induction ps as [|p ps IH]; intros t; simpl; [done|].
  rewrite IH. unfold apply_put. by apply select_set_other.
Qed.

Lemma puts_snoc (d : string) (ps : list PutCall) (p : PutCall) (t : db) :
  fold_left (apply_put d) (ps ++ [p]) t =
  setCachedResult (fold_left (apply_put d) ps t) d (put_vt p) (put_gsb p)
    (put_combined p) (put_now p).
Proof. by rewrite fold_left_app. Qed.

End CacheFacts.

Module CacheClaims.
Import Types Cache CacheFacts.

(** C4: after [setCachedResult] for domain [d] at time [now], reading [d]
    at time [time] returns the stored per-source results and combined
    score, created at [now] and expiring at [now + 24h], as long as
    [time <= now + 24h], and returns nothing once [time] is past it. *)
Theorem cache_roundtrip_ttl (t : db) (d : string) (vt gsb : option Report) (c : Q)
    (now time : Z) :
  getCachedResult (setCachedResult t d vt gsb c now) d time =
  if Z.leb time (now + DEFAULT_TTL)
  then Some (mkCachedCheck d vt gsb c now (now + DEFAULT_TTL))
  else None.
Proof.
  unfold getCachedResult. rewrite select_set_same.
  unfold isExpired; cbn [expires_at fresh_row].
  rewrite Z.ltb_antisym. by destruct (Z.leb time (now + DEFAULT_TTL)).
Qed.

(** C5: each write deletes the rows of its domain and inserts a fresh
    one; after a non-empty sequence of writes for [d] the table holds
    exactly one row for [d], created at the last write's time and
    expiring 24h later, with that write's combined score; rows of other
    domains are untouched, so at most one row per domain is preserved. *)
Theorem cache_put_supersedes (t : db) (d : string) (ps : list PutCall) (p : PutCall) :
  (exists r, select_domain d (fold_left (apply_put d) (ps ++ [p]) t) = [r] /\
     created_at r = put_now p /\ expires_at r = (put_now p + DEFAULT_TTL)%Z /\
     combined_risk_score r = put_combined p) /\
  (forall d', d' <> d ->
     select_domain d' (fold_left (apply_put d) (ps ++ [p]) t) = select_domain d' t) /\
  ((forall d', length (select_domain d' t) <= 1)%nat ->
     forall d', length (select_domain d' (fold_left (apply_put d) (ps ++ [p]) t)) <= 1)%nat.
Proof.
  rewrite puts_snoc.
  set (t0 := fold_left (apply_put d) ps t).
  split; [|split].
  - eexists; split; [apply select_set_same|done].
  - intros d' Hne. rewrite select_set_other by done. by apply puts_other.
  - intros Hle d'. destruct (decide (d' = d)) as [->|Hne].
    + rewrite select_set_same. simpl. lia.
    + rewrite select_set_other by done. unfold t0. rewrite puts_other by done. apply Hle.
Qed.

End CacheClaims.

Module RateLimitFacts.
Import RateLimit.
Open Scope Z_scope.

(** The entry of a client after one request at [now]: a fresh window
    when there is none or [now > resetTime], then the increment. *)
Definition next_entry (o : option RateLimitEntry) (now : Z) : RateLimitEntry :=
  match o with
  | Some e =>
      if Z.ltb (resetTime e) now then mkEntry 1 (now + WINDOW)
      else mkEntry (count e + 1) (resetTime e)
  | None => mkEntry 1 (now + WINDOW)
  end.

(** The outcome of a request at [now] whose client entry became [e]. *)
Definition outcome_of (e : RateLimitEntry) (now : Z) : outcome :=
  mkOutcome LIMIT (Z.max 0 (LIMIT - count e)) (resetTime e)
    (if Z.leb (count e) LIMIT then Next
     else TooMany (ceil_div1000 (resetTime e - now)) LIMIT).

(** Whether the client [ip] has a window that is still open at [now]. *)
Definition window_live (store : gmap string RateLimitEntry) (ip : string) (now : Z) : bool :=
  match store !! ip with
  | Some e => negb (Z.ltb (resetTime e) now)
  | None => false
  end.

Lemma rateLimitMiddleware_eq (store : gmap string RateLimitEntry) (now : Z) (h : headers) :
  rateLimitMiddleware store now h =
  (<[getClientIp h := next_entry (store !! getClientIp h) now]> store,
   outcome_of (next_entry (store !! getClientIp h) now) now).
Proof.
  unfold rateLimitMiddleware, outcome_of.
  destruct (store !! getClientIp h) as [e|] eqn:He; simpl;
    [destruct (Z.ltb (resetTime e) now) eqn:Hr; simpl|];
    rewrite ?insert_delete_eq; repeat f_equal;
    rewrite Z.leb_antisym; destruct (Z.ltb LIMIT _); reflexivity.
Qed.

(** Outcomes of successive requests of one client inside an open window
    [r] whose counter starts at [c]. *)
Fixpoint window_outcomes (c r : Z) (ts : list Z) : list outcome :=
  match ts with
  | [] => []
  | t :: ts' => outcome_of (mkEntry (c + 1) r) t :: window_outcomes (c + 1) r ts'
  end.

Lemma run_in_window (store : gmap string RateLimitEntry) (h : headers) (c r : Z)
    (ts : list Z) :
  store !! getClientIp h = Some (mkEntry c r) ->
  Forall (fun t => t <= r) ts ->
  run store (map (fun t => (t, h)) ts) =
  (<[getClientIp h := mkEntry (c + Z.of_nat (length ts)) r]> store, window_outcomes c r ts).
Proof.
  revert store c; induction ts as [|t ts IH]; intros store c Hs Hin; simpl.
  - rewrite Z.add_0_r. by rewrite insert_id.
  - inversion Hin as [|? ? Ht Hts]; subst.
    rewrite rateLimitMiddleware_eq, Hs. simpl.
    assert (Hlt : Z.ltb r t = false) by (apply Z.ltb_ge; lia). rewrite Hlt.
    rewrite (IH _ (c + 1)); [|by rewrite lookup_insert_eq|done].
    rewrite insert_insert_eq. do 3 f_equal. lia.
Qed.

Lemma window_outcomes_lookup (c r : Z) (ts : list Z) (i : nat) (t : Z) :
  ts !! i = Some t ->
  window_outcomes c r ts !! i = Some (outcome_of (mkEntry (c + Z.of_nat i + 1) r) t).
Proof.
  revert c i; induction ts as [|t' ts IH]; intros c i Hi; [done|].
  destruct i as [|i]; simpl in *.
  - injection Hi as ->. do 3 f_equal. lia.
  - rewrite (IH (c + 1) i Hi). do 3 f_equal. lia.
Qed.

(** The first request of a client with no open window opens one. *)
Lemma first_request (store : gmap string RateLimitEntry) (h : headers) (t0 : Z) :
  window_live store (getClientIp h) t0 = false ->
  next_entry (store !! getClientIp h) t0 = mkEntry 1 (t0 + WINDOW).
Proof.
  unfold window_live, next_entry. destruct (store !! getClientIp h) as [e|]; [|done].
  by destruct (Z.ltb (resetTime e) t0).
Qed.

Lemma run_cons (store : gmap string RateLimitEntry) (t : Z) (h : headers)
    (reqs : list (Z * headers)) :
  run store ((t, h) :: reqs) =
  let '(store', o) := rateLimitMiddleware store t h in
  let '(store'', os) := run store' reqs in (store'', o :: os).
Proof. reflexivity. Qed.

(** A client without an open window at [t0] sending requests at [t0] and
    then at times [ts] inside the window opened at [t0]. *)
Lemma run_fresh_window (store : gmap string RateLimitEntry) (h : headers) (t0 : Z)
    (ts : list Z) :
  window_live store (getClientIp h) t0 = false ->
  Forall (fun t => t <= t0 + WINDOW) ts ->
  run store (map (fun t => (t, h)) (t0 :: ts)) =
  (<[getClientIp h := mkEntry (1 + Z.of_nat (length ts)) (t0 + WINDOW)]> store,
   outcome_of (mkEntry 1 (t0 + WINDOW)) t0 :: window_outcomes 1 (t0 + WINDOW) ts).
Proof.
  intros Hfresh Hin. cbn [map]. rewrite run_cons, rateLimitMiddleware_eq.
  rewrite (first_request _ _ _ Hfresh).
  rewrite (run_in_window _ h 1 (t0 + WINDOW) ts); [|by rewrite lookup_insert_eq|done].
  by rewrite insert_insert_eq.
Qed.

Lemma outcome_of_allowed (e : RateLimitEntry) (now : Z) :
  allowed (outcome_of e now) = Z.leb (count e) LIMIT.
Proof. unfold allowed, outcome_of; simpl. by destruct (Z.leb (count e) LIMIT). Qed.

Lemma rateLimitMiddleware_client (store : gmap string RateLimitEntry) (now : Z)
    (h h' : headers) :
  getClientIp h = getClientIp h' ->
  rateLimitMiddleware store now h = rateLimitMiddleware store now h'.
Proof. intros Hk. by rewrite !rateLimitMiddleware_eq, Hk. Qed.

(** Requests whose headers map to the same client as [h] are processed
    exactly as requests carrying [h]. *)
Lemma run_same_client (store : gmap string RateLimitEntry) (h : headers)
    (reqs : list (Z * headers)) :
  Forall (fun th => getClientIp (snd th) = getClientIp h) reqs ->
  run store reqs = run store (map (fun t => (t, h)) (map fst reqs)).
Proof.
  revert store; induction reqs as [|[t h1] reqs IH]; intros store Hk; [done|].
  inversion Hk as [|? ? Hh Hks]; subst. cbn [map fst].
  rewrite !run_cons. rewrite (rateLimitMiddleware_client _ _ h1 h Hh).
  destruct (rateLimitMiddleware store t h) as [s' o]. by rewrite IH.
Qed.

End RateLimitFacts.

Module RateLimitClaims.
Import RateLimit RateLimitFacts.
Open Scope Z_scope.

(** C9: each request resets the client's window to [now + WINDOW] with
    counter 0 when there is none or [now > resetTime], then increments
    the counter, and passes iff the counter is at most 60. So for a
    client whose window opens with its first request at [t0], the 60
    first requests inside that window pass, the 60th with remaining 0;
    the 61st is rejected with status 429 carrying the limit 60 and the
    retry-after seconds [ceil((t0 + WINDOW - t60) / 1000)]; and a
    request after the window has expired passes again. *)
Theorem rate_limit_fixed_window (store : gmap string RateLimitEntry) (h : headers)
    (t0 t60 tlate : Z) (ts : list Z)
    (Hfresh : window_live store (getClientIp h) t0 = false)
    (Hlen : length ts = 59%nat)
    (Hin : Forall (fun t => t <= t0 + WINDOW) (ts ++ [t60]))
    (Hlate : t0 + WINDOW < tlate) :
  (forall (s : gmap string RateLimitEntry) (now : Z) (h' : headers),
     fst (rateLimitMiddleware s now h') !! getClientIp h'
       = Some (next_entry (s !! getClientIp h') now) /\
     allowed (snd (rateLimitMiddleware s now h'))
       = Z.leb (count (next_entry (s !! getClientIp h') now)) LIMIT) /\
  (forall i : nat, (i < 60)%nat -> exists o,
     snd (run store (map (fun t => (t, h)) (t0 :: ts ++ [t60]))) !! i = Some o /\
     allowed o = true) /\
  snd (run store (map (fun t => (t, h)) (t0 :: ts ++ [t60]))) !! 59%nat
    = Some (mkOutcome 60 0 (t0 + WINDOW) Next) /\
  snd (run store (map (fun t => (t, h)) (t0 :: ts ++ [t60]))) !! 60%nat
    = Some (mkOutcome 60 0 (t0 + WINDOW) (TooMany (ceil_div1000 (t0 + WINDOW - t60)) 60)) /\
  allowed (snd (rateLimitMiddleware
    (fst (run store (map (fun t => (t, h)) (t0 :: ts ++ [t60])))) tlate h)) = true.
Proof.
  rewrite (run_fresh_window _ _ _ _ Hfresh Hin). cbn [fst snd].
  assert (Hlen' : length (ts ++ [t60]) = 60%nat) by (rewrite length_app; simpl; lia).
  split; [|split; [|split; [|split]]].
  - intros s now h'. rewrite rateLimitMiddleware_eq. cbn [fst snd].
    rewrite lookup_insert_eq. split; [done|]. apply outcome_of_allowed.
  - intros [|j] Hj.
    + eexists; split; [reflexivity|]. reflexivity.
    + destruct (lookup_lt_is_Some_2 (ts ++ [t60]) j) as [tj Htj]; [lia|].
      cbn [lookup list_lookup]. simpl.
      rewrite (window_outcomes_lookup _ _ _ _ _ Htj).
      eexists; split; [reflexivity|]. rewrite outcome_of_allowed. simpl.
      apply Z.leb_le. unfold LIMIT. lia.
  - destruct (lookup_lt_is_Some_2 (ts ++ [t60]) 58) as [tj Htj]; [lia|].
    simpl. rewrite (window_outcomes_lookup _ _ _ _ _ Htj). reflexivity.
  - assert (Ht : (ts ++ [t60]) !! 59%nat = Some t60)
      by (rewrite lookup_app_r by lia; rewrite Hlen; reflexivity).
    simpl. rewrite (window_outcomes_lookup _ _ _ _ _ Ht). reflexivity.
  - rewrite rateLimitMiddleware_eq. cbn [snd]. rewrite lookup_insert_eq.
    cbn [next_entry resetTime]. rewrite outcome_of_allowed.
    assert (Hr : Z.ltb (t0 + WINDOW) tlate = true) by (apply Z.ltb_lt; lia).
    rewrite Hr. reflexivity.
Qed.

End RateLimitClaims.

Module ClientKeyClaims.
Import RateLimit RateLimitFacts.
Open Scope Z_scope.

(** C10: requests with neither an [x-forwarded-for] nor an [x-real-ip]
    header all get the client key 'unknown' and share one window: from
    a state where 'unknown' has no open window, a burst of such requests
    from any callers inside the window opened by the first one leaves a
    single 'unknown' entry counting all of them, and the 61st of them is
    rejected with status 429. *)
Theorem unknown_client_shared_window (store : gmap string RateLimitEntry)
    (t0 : Z) (h0 : headers) (rest : list (Z * headers))
    (Hno : Forall (fun th => header (snd th) "x-forwarded-for" = None /\
                             header (snd th) "x-real-ip" = None) ((t0, h0) :: rest))
    (Hfresh : window_live store "unknown" t0 = false)
    (Hin : Forall (fun th => fst th <= t0 + WINDOW) rest) :
  Forall (fun th => getClientIp (snd th) = "unknown") ((t0, h0) :: rest) /\
  fst (run store ((t0, h0) :: rest))
    = <["unknown" := mkEntry (1 + Z.of_nat (length rest)) (t0 + WINDOW)]> store /\
  (length rest = 60%nat -> exists ra,
     snd (run store ((t0, h0) :: rest)) !! 60%nat
       = Some (mkOutcome 60 0 (t0 + WINDOW) (TooMany ra 60))).
Proof.
  assert (Hkeys : Forall (fun th => getClientIp (snd th) = "unknown") ((t0, h0) :: rest)).
  { eapply Forall_impl; [exact Hno|]. intros [t h] [Hx Hr]; simpl in *.
    unfold getClientIp. by rewrite Hx, Hr. }
  split; [done|].
  rewrite (run_same_client store [] _ Hkeys).
  change (map fst ((t0, h0) :: rest)) with (t0 :: map fst rest).
  assert (Hin' : Forall (fun t => t <= t0 + WINDOW) (map fst rest))
    by (apply Forall_map; done).
  rewrite (run_fresh_window store [] t0 (map fst rest) Hfresh Hin'), length_map.
  cbn [fst snd]. split; [done|].
  intros Hlen.
  destruct (lookup_lt_is_Some_2 (map fst rest) 59) as [t60 Ht]; [rewrite length_map; lia|].
  simpl. rewrite (window_outcomes_lookup _ _ _ _ _ Ht). eexists. reflexivity.
Qed.

End ClientKeyClaims.

Module RateLimitScenario.
Import Types Check Retry.
Open Scope Q_scope.

(** C1: a cache miss where VirusTotal scores 10 and the Safe Browsing
    request is answered with HTTP 429 on its first attempt.  The adapter
    makes that single call and re-throws the [RateLimitError], but
    [Promise.allSettled] turns the rejection into a [null] source: the
    route answers 200 with VirusTotal's score alone, and the 429 branch
    of its [catch] block is never reached. *)
Lemma post_rate_limit_not_propagated :
  gsbCheckUrl (fun _ => Err (RateLimitError "Google Safe Browsing API rate limit exceeded"))
    (mkReport "example.com" 50)
  = (Rejected (RateLimitError "Google Safe Browsing API rate limit exceeded"), [Call 0]) /\
  fst (post (Cache.mkDb [] 0) 0%Z "http://example.com" "example.com"
         (Fulfilled (mkReport "example.com" 10))
         (Rejected (RateLimitError "Google Safe Browsing API rate limit exceeded")))
  = CheckResponse "http://example.com" 10 Safe
      [mkSourceResult "virustotal" 10 false;
       mkSourceResult "google-safe-browsing" 0 true] false 0%Z.
Proof. split; reflexivity. Qed.

End RateLimitScenario.

(* ================================================================= *)
(** * Instances of the properties on concrete inputs *)

Module Witnesses.
Import Types Retry RetryClaims Check CheckClaims Cache CacheFacts CacheClaims.

Lemma retry_non_retryable_once_witness :
  gsbShouldRetry (RateLimitError "quota") = false /\
  retryWithBackoff (fun _ => Err (A := Report) (RateLimitError "quota")) gsbRetryOptions
    = (Err (RateLimitError "quota"), [Call 0]).
Proof.
  split; [reflexivity|].
  apply (retry_non_retryable_once _ _ (RateLimitError "quota")); reflexivity.
Defined.

Lemma retry_backoff_exhausts_witness :
  calls (snd (retryWithBackoff (fun _ => Err (A := Report) (NetworkError "503"))
                gsbRetryOptions)) = 3%nat /\
  sleeps (snd (retryWithBackoff (fun _ => Err (A := Report) (NetworkError "503"))
                 gsbRetryOptions)) = [1000%Z; 2000%Z].
Proof.
  destruct (retry_backoff_exhausts (fun _ => Err (A := Report) (NetworkError "503"))
              gsbRetryOptions (fun _ => NetworkError "503")
              (fun _ => eq_refl) (fun _ => eq_refl)) as (_ & H2 & _ & H4).
  split; [exact H2|]. apply H4; reflexivity.
Defined.

Lemma post_mean_over_succeeded_witness :
  getCachedResult (mkDb [] 0) "example.com" 0%Z = None /\
  exists s srcs t',
    post (mkDb [] 0) 0%Z "http://example.com" "example.com"
      (Rejected (NetworkError "timeout")) (Fulfilled (mkReport "example.com" 70))
    = (CheckResponse "http://example.com" s High srcs false 0%Z, t') /\ (s == 70)%Q.
Proof.
  split; [reflexivity|].
  assert (Hne : CheckFacts.succeeded [Rejected (NetworkError "timeout");
                                      Fulfilled (mkReport "example.com" 70)] <> [])
    by discriminate.
  destruct (post_mean_over_succeeded (mkDb [] 0) 0%Z "http://example.com" "example.com"
              (Rejected (NetworkError "timeout")) (Fulfilled (mkReport "example.com" 70))
              eq_refl Hne) as (_ & H & _).
  exact (H (NetworkError "timeout") "example.com").
Defined.

Lemma post_all_sources_failed_witness :
  post (mkDb [] 0) 0%Z "http://foo.test" "foo.test"
    (Rejected (NetworkError "down")) (Rejected (TimeoutError "slow"))
  = (ErrorResponse 502 "All reputation sources failed", mkDb [] 0).
Proof. apply post_all_sources_failed; reflexivity. Defined.

Lemma cache_put_supersedes_witness :
  (length (select_domain "example.com"
    (fold_left (apply_put "example.com") ([] ++ [mkPutCall None None 15 0%Z]) (mkDb [] 0)))
    <= 1)%nat.
Proof.
  destruct (cache_put_supersedes (mkDb [] 0) "example.com" [] (mkPutCall None None 15 0%Z))
    as (_ & _ & H).
  apply H. intros d'; simpl; lia.
Defined.

End Witnesses.

Module RateLimitWitnesses.
Import RateLimit RateLimitClaims ClientKeyClaims.
Open Scope Z_scope.

Lemma rate_limit_fixed_window_witness :
  snd (run ∅ (map (fun t => (t, [])) (0 :: repeat 1000 59 ++ [2000]))) !! 60%nat
    = Some (mkOutcome 60 0 60000 (TooMany 58 60)).
Proof.
  destruct (rate_limit_fixed_window ∅ [] 0 2000 70000 (repeat 1000 59)) as (_ & _ & _ & H & _).
  - reflexivity.
  - reflexivity.
  - repeat constructor; unfold WINDOW; lia.
  - unfold WINDOW; lia.
  - exact H.
Defined.

Lemma unknown_client_shared_window_witness :
  exists ra,
    snd (run ∅ ((0, [("user-agent", "a")]) :: repeat (1000, [("user-agent", "b")]) 60))
      !! 60%nat = Some (mkOutcome 60 0 (0 + WINDOW) (TooMany ra 60)).
Proof.
  destruct (unknown_client_shared_window ∅ 0 [("user-agent", "a")]
              (repeat (1000, [("user-agent", "b")]) 60)) as (_ & _ & H).
  - repeat constructor.
  - reflexivity.
  - repeat constructor; unfold WINDOW; simpl; lia.
  - exact (H eq_refl).
Defined.

End RateLimitWitnesses.

(* ================================================================= *)
(** * Further properties of the code *)

Module RetryMore.
Import Retry.

Section Loop.
Context {A E : Type}.
Variables (op : nat -> result A E) (opts : RetryOptions E).

Lemma retry_loop_success (left attempt k : nat) (v : A) (errs : nat -> E) :
  (attempt <= k <= attempt + left)%nat ->
  (forall j, (attempt <= j < k)%nat -> op j = Err (errs j) /\ shouldRetry opts (errs j) = true) ->
  op k = Ok v ->
  fst (retry_loop op opts left attempt) = Ok v /\
  calls (snd (retry_loop op opts left attempt)) = S (k - attempt) /\
  sleeps (snd (retry_loop op opts left attempt)) =
    map (fun i => (initialDelayMs opts * factor opts ^ Z.of_nat i)%Z) (seq attempt (k - attempt)).
Proof.
  revert attempt; induction left as [|left IH]; intros attempt Hk Hpre Hok.
  - assert (k = attempt) as -> by lia. simpl. rewrite Hok. simpl.
    rewrite Nat.sub_diag. auto.
  - destruct (decide (k = attempt)) as [->|Hne].
    + simpl. rewrite Hok. simpl. rewrite Nat.sub_diag. auto.
    + destruct (Hpre attempt) as [Hf Hr]; [lia|].
      simpl. rewrite Hf, Hr. simpl.
      destruct (IH (S attempt)) as (H1 & H2 & H3); [lia| |done|].
      { intros j Hj. apply Hpre. lia. }
      destruct (retry_loop op opts left (S attempt)) as [r tr]; simpl in *.
      replace (k - attempt)%nat with (S (k - S attempt)) by lia.
      split; [done|]. split; [by rewrite H2|]. simpl. by rewrite H3.
Qed.

Lemma retry_loop_shape (left attempt : nat) :
  (calls (snd (retry_loop op opts left attempt)) <= S left)%nat /\
  calls (snd (retry_loop op opts left attempt)) =
    S (length (sleeps (snd (retry_loop op opts left attempt)))) /\
  exists k, (attempt <= k <= attempt + left)%nat /\
    calls (snd (retry_loop op opts left attempt)) = S (k - attempt) /\
    op k = fst (retry_loop op opts left attempt).
Proof.
  revert attempt; induction left as [|left IH]; intros attempt; simpl.
  - destruct (op attempt) eqn:Hop; simpl;
      (split; [lia|]); (split; [done|]); exists attempt; (split; [lia|]);
      rewrite Nat.sub_diag; auto.
  - destruct (op attempt) eqn:Hop; simpl.
    + split; [lia|]. split; [done|]. exists attempt. rewrite Nat.sub_diag. split; [lia|]. auto.
    + destruct (negb (shouldRetry opts e)); simpl.
      * split; [lia|]. split; [done|]. exists attempt. rewrite Nat.sub_diag. split; [lia|]. auto.
      * destruct (IH (S attempt)) as (H1 & H2 & k & Hk & Hc & Hopk).
        destruct (retry_loop op opts left (S attempt)) as [r tr]; simpl in *.
        split; [lia|]. split; [by rewrite H2|].
        exists k. split; [lia|]. split; [lia|]. done.
Qed.

End Loop.

(** The wrapper returns the value of the first call that succeeds within
    the budget: when the calls before attempt [k <= retries] all fail
    with retryable errors and call [k] succeeds, the result is that value
    after [k + 1] calls, having slept [initialDelayMs * factor ^ i] after
    each failed attempt [i]. *)
Theorem retry_first_success {A E : Type} (op : nat -> result A E) (opts : RetryOptions E)
    (k : nat) (v : A) (errs : nat -> E)
    (Hk : (k <= retries opts)%nat)
    (Hpre : forall j, (j < k)%nat -> op j = Err (errs j) /\ shouldRetry opts (errs j) = true)
    (Hok : op k = Ok v) :
  fst (retryWithBackoff op opts) = Ok v /\
  calls (snd (retryWithBackoff op opts)) = S k /\
  sleeps (snd (retryWithBackoff op opts)) =
    map (fun i => (initialDelayMs opts * factor opts ^ Z.of_nat i)%Z) (seq 0 k).
Proof.
  unfold retryWithBackoff.
  destruct (retry_loop_success op opts (retries opts) 0 k v errs) as (H1 & H2 & H3);
    [lia| intros j Hj; apply Hpre; lia | done |].
  rewrite Nat.sub_0_r in H2, H3. auto.
Qed.


End RetryMore.

Module AdapterFacts.
Import Types Retry Check Adapters CheckFacts.

Lemma gsbAttempt_ok (resp : fetchOutcome (list string)) (m : list string) :
  gsbAttempt resp = Ok m ->
  exists status, resp = HttpResponse status (Some m) /\ ok_status status = true.
Proof.
  destruct resp as [| |status [b|]]; simpl; try discriminate.
  - destruct (status =? 429)%Z; [discriminate|].
    destruct (500 <=? status)%Z; [discriminate|].
    destruct (ok_status status) eqn:Hok; simpl; [|discriminate].
    intros [= ->]. eauto.
  - destruct (status =? 429)%Z; [discriminate|].
    destruct (500 <=? status)%Z; [discriminate|].
    destruct (ok_status status); discriminate.
Qed.

Lemma gsbAttempt_rate_limit (resp : fetchOutcome (list string)) (m : string) :
  gsbAttempt resp = Err (RateLimitError m) ->
  exists b, resp = HttpResponse 429 b /\ m = "Google Safe Browsing API rate limit exceeded".
Proof.
  destruct resp as [| |status b]; simpl; try discriminate.
  destruct (status =? 429)%Z eqn:H429.
  - apply Z.eqb_eq in H429 as ->. intros [= <-]. eauto.
  - destruct (500 <=? status)%Z; [discriminate|].
    destruct (ok_status status); simpl; [destruct b|]; discriminate.
Qed.

Lemma gsbAttempt_transient (resp : fetchOutcome (list string)) :
  (resp = Aborted \/ exists status b, resp = HttpResponse status b /\ (500 <= status)%Z) ->
  exists e, gsbAttempt resp = Err e /\ gsbShouldRetry e = true.
Proof.
  intros [->|(status & b & -> & Hs)]; simpl; [eauto|].
  destruct (status =? 429)%Z eqn:H429; [apply Z.eqb_eq in H429; lia|].
  destruct (500 <=? status)%Z eqn:H5; [eauto|apply Z.leb_gt in H5; lia].
Qed.

Lemma Qle_inject (a b : Z) : (a <= b)%Z -> (inject_Z a <= inject_Z b)%Q.
Proof. by rewrite Zle_Qle. Qed.

Lemma calculateRiskScore_bounds (det eng : Z) :
  (0 <= det <= eng)%Z -> (0 <= calculateRiskScore det eng <= 100)%Q.
Proof.
  intros Hd. unfold calculateRiskScore.
  destruct (eng =? 0)%Z eqn:He; [split; discriminate|].
  apply Z.eqb_neq in He.
  assert (Hpos : (0 < inject_Z eng)%Q) by (unfold Qlt; simpl; lia).
  assert (H0 : (0 <= inject_Z det)%Q) by (apply (Qle_inject 0); lia).
  assert (H1 : (inject_Z det <= inject_Z eng)%Q) by (apply Qle_inject; lia).
  setoid_replace (inject_Z det / inject_Z eng * 100)%Q
    with ((inject_Z det * 100) / inject_Z eng)%Q using relation Qeq by (field; lra).
  split.
  - apply Qle_shift_div_l; [done|]. lra.
  - apply Qle_shift_div_r; [done|]. lra.
Qed.

Lemma vtGetMockResult_bounds (d : string) :
  (0 <= vtMockDetections d <= 69)%Z.
Proof.
  unfold vtMockDetections.
  destruct (isHighRisk d); [|destruct (isMediumRisk d)];
    pose proof (Z.mod_pos_bound (domainHash d) 40);
    pose proof (Z.mod_pos_bound (domainHash d) 20);
    pose proof (Z.mod_pos_bound (domainHash d) 11); lia.
Qed.

End AdapterFacts.

Module AdapterProps.
Import Types Retry Check Adapters CheckFacts AdapterFacts.

(** The Safe Browsing [checkUrl] with an API key fetches at most three
    times and settles in one of three ways only: the score computed from
    a successful (2xx, valid JSON) response, a rejection with
    [RateLimitError] after an HTTP 429, or the domain's mock result. *)
Theorem gsb_checkUrl_outcomes (responses : nat -> fetchOutcome (list string)) (d : string) :
  (calls (snd (gsbCheckUrlHttp true responses d)) <= 3)%nat /\
  (fst (gsbCheckUrlHttp true responses d) = Fulfilled (gsbGetMockResult d) \/
   (exists k status m, (k < 3)%nat /\ responses k = HttpResponse status (Some m) /\
      ok_status status = true /\
      fst (gsbCheckUrlHttp true responses d) = Fulfilled (gsbReport d m)) \/
   (exists k b, (k < 3)%nat /\ responses k = HttpResponse 429 b /\
      fst (gsbCheckUrlHttp true responses d)
        = Rejected (RateLimitError "Google Safe Browsing API rate limit exceeded"))).
Proof.
  unfold gsbCheckUrlHttp; simpl negb; cbv iota.
  pose proof (RetryMore.retry_loop_shape (fun k => gsbAttempt (responses k)) gsbRetryOptions
                2 0) as (Hc & _ & k & Hk & _ & Hop).
  unfold retryWithBackoff. simpl retries.
  destruct (retry_loop (fun k => gsbAttempt (responses k)) gsbRetryOptions 2 0)
    as [r tr] eqn:Hr; simpl in *.
  split; [done|].
  destruct r as [m|e]; simpl.
  - right; left. destruct (gsbAttempt_ok _ _ Hop) as (status & Hs & Hok).
    exists k, status, m. repeat split; [lia|done|done].
  - destruct e as [m| | | |]; simpl; try (left; reflexivity).
    right; right. destruct (gsbAttempt_rate_limit _ _ Hop) as (b & Hb & ->).
    exists k, b. repeat split; [lia|done].
Qed.

(** When every Safe Browsing fetch times out or answers 5xx, the adapter
    fetches three times, sleeping 1000 ms then 2000 ms, and then falls
    back to the domain's mock result instead of failing. *)
Theorem gsb_transient_falls_back (responses : nat -> fetchOutcome (list string)) (d : string)
    (Htr : forall k, responses k = Aborted \/
                     exists status b, responses k = HttpResponse status b /\ (500 <= status)%Z) :
  fst (gsbCheckUrlHttp true responses d) = Fulfilled (gsbGetMockResult d) /\
  calls (snd (gsbCheckUrlHttp true responses d)) = 3%nat /\
  sleeps (snd (gsbCheckUrlHttp true responses d)) = [1000%Z; 2000%Z].
Proof.
  set (errs := fun k => match gsbAttempt (responses k) with
                        | Err e => e | Ok _ => GenericError "" end).
  assert (Hf : forall k, gsbAttempt (responses k) = Err (errs k) /\
                         gsbShouldRetry (errs k) = true).
  { intros k. destruct (gsbAttempt_transient _ (Htr k)) as (e & He & Hr).
    unfold errs. by rewrite He. }
  destruct (RetryFacts.retry_loop_all_fail (fun k => gsbAttempt (responses k)) gsbRetryOptions
              errs (fun k => proj1 (Hf k)) (fun k => proj2 (Hf k)) 2 0) as (H1 & H2 & H3).
  unfold gsbCheckUrlHttp, retryWithBackoff. simpl negb. cbv iota. simpl retries.
  destruct (retry_loop (fun k => gsbAttempt (responses k)) gsbRetryOptions 2 0)
    as [r tr]; simpl in *. subst r.
  pose proof (proj2 (Hf 2%nat)) as Hr2.
  split; [|split; [done|by rewrite H3]].
  destruct (errs 2%nat); done.
Qed.

(** The score of a successful Safe Browsing response: no match gives
    riskScore 10 (safe); any match gives a riskScore between 60 and 90
    (high or dangerous); a MALWARE match gives 90 (dangerous). *)
Theorem gsb_threat_scoring (d : string) (threatTypes : list string) :
  (threatTypes = [] -> riskScore (gsbReport d threatTypes) = 10%Q /\
                       getRiskLevel (riskScore (gsbReport d threatTypes)) = Safe) /\
  (threatTypes <> [] ->
     (60 <= riskScore (gsbReport d threatTypes) <= 90)%Q /\
     (getRiskLevel (riskScore (gsbReport d threatTypes)) = High \/
      getRiskLevel (riskScore (gsbReport d threatTypes)) = Dangerous)) /\
  (In "MALWARE" threatTypes -> riskScore (gsbReport d threatTypes) = 90%Q /\
     getRiskLevel (riskScore (gsbReport d threatTypes)) = Dangerous).
Proof.
  split; [|split].
  - intros ->. split; reflexivity.
  - intros Hne.
    assert (Hr : (60 <= riskScore (gsbReport d threatTypes) <= 90)%Q).
    { unfold gsbReport, invertTrustToRiskScore, gsbTrust; simpl.
      destruct threatTypes as [|t ts]; [done|].
      destruct (existsb _ _); [|destruct (existsb _ _); [|destruct (existsb _ _)]];
        split; unfold Qle; simpl; lia. }
    split; [done|].
    destruct (getRiskLevel_cases (riskScore (gsbReport d threatTypes)))
      as [[Hs Hl]|[[Hs Hl]|[[Hs Hl]|[[Hs Hl]|[Hs Hl]]]]]; auto; lra.
  - intros Hin.
    assert (Hm : existsb (String.eqb "MALWARE") threatTypes = true).
    { apply existsb_exists. exists "MALWARE"%string. split; [done|]. apply String.eqb_refl. }
    assert (Ht : gsbTrust threatTypes = 10%Z).
    { unfold gsbTrust. destruct threatTypes as [|t ts]; [done|]. by rewrite Hm. }
    unfold gsbReport, invertTrustToRiskScore. rewrite Ht. split; reflexivity.
Qed.

(** The riskScore of a Safe Browsing mock result follows the domain's
    tier: 71 to 90 for a domain containing a high-risk keyword (so high or
    dangerous), 41 to 60 for one containing 'example', 'test' or
    'medium', and 6 to 30 otherwise. *)
Theorem gsb_mock_tiers (d : string) :
  let r := invertTrustToRiskScore (gsbMockTrust d) in
  riskScore (gsbGetMockResult d) = inject_Z r /\
  (if isHighRisk d then (71 <= r <= 90)%Z
   else if isMediumRisk d then (41 <= r <= 60)%Z
   else (6 <= r <= 30)%Z) /\
  (isHighRisk d = true ->
     getRiskLevel (riskScore (gsbGetMockResult d)) = High \/
     getRiskLevel (riskScore (gsbGetMockResult d)) = Dangerous).
Proof.
  intros r. split; [done|].
  assert (Hb : if isHighRisk d then (71 <= r <= 90)%Z
               else if isMediumRisk d then (41 <= r <= 60)%Z
               else (6 <= r <= 30)%Z).
  { unfold r, invertTrustToRiskScore, gsbMockTrust.
    destruct (isHighRisk d); [|destruct (isMediumRisk d)];
      pose proof (Z.mod_pos_bound (domainHash d) 20);
      pose proof (Z.mod_pos_bound (domainHash d) 25); lia. }
  split; [done|].
  intros Hh. rewrite Hh in Hb. simpl.
  assert (Hq : (71 <= inject_Z r <= 90)%Q) by (split; unfold Qle; simpl; lia).
  destruct (getRiskLevel_cases (inject_Z r))
    as [[Hs Hl]|[[Hs Hl]|[[Hs Hl]|[[Hs Hl]|[Hs Hl]]]]]; auto; lra.
Qed.

(** The VirusTotal mock reports 30 to 69 of 88 engines for a domain with
    a high-risk keyword, 15 to 34 for one containing 'example', 'test' or
    'medium', 0 to 10 otherwise; its riskScore is that share of 100, so
    between 0 and 100. *)
Theorem vt_mock_tiers (d : string) :
  (if isHighRisk d then (30 <= vtMockDetections d <= 69)%Z
   else if isMediumRisk d then (15 <= vtMockDetections d <= 34)%Z
   else (0 <= vtMockDetections d <= 10)%Z) /\
  (riskScore (vtGetMockResult d) == inject_Z (vtMockDetections d) * 100 / 88)%Q /\
  (0 <= riskScore (vtGetMockResult d) <= 100)%Q.
Proof.
  split; [|split].
  - unfold vtMockDetections.
    destruct (isHighRisk d); [|destruct (isMediumRisk d)];
      pose proof (Z.mod_pos_bound (domainHash d) 40);
      pose proof (Z.mod_pos_bound (domainHash d) 20);
      pose proof (Z.mod_pos_bound (domainHash d) 11); lia.
  - unfold vtGetMockResult, calculateRiskScore; simpl. field.
  - apply calculateRiskScore_bounds. pose proof (vtGetMockResult_bounds d). lia.
Qed.

End AdapterProps.

Module VirusTotalProps.
Import Types Check Adapters AdapterFacts.

(** The counts of a decoded VirusTotal payload are non-negative. *)
Definition vtCountsNonneg (resp : fetchOutcome vtBody) : Prop :=
  match resp with
  | HttpResponse _ (Some b) =>
      match vb_attributes b with
      | Some (Some st) =>
          (0 <= or0 (malicious st) /\ 0 <= or0 (suspicious st) /\
           0 <= or0 (undetected st) /\ 0 <= or0 (harmless st))%Z
      | _ => True
      end
  | _ => True
  end.

(** Every report of the VirusTotal adapter, from the API (with
    non-negative engine counts) or from the mock, has a riskScore between
    0 and 100. *)
Theorem vt_score_in_range (hasKey : bool) (resp : fetchOutcome vtBody) (d : string) (r : Report)
    (Hnn : vtCountsNonneg resp)
    (Hr : vtCheckUrl hasKey resp d = Fulfilled r) :
  (0 <= riskScore r <= 100)%Q.
Proof.
  assert (Hmock : (0 <= riskScore (vtGetMockResult d) <= 100)%Q).
  { apply calculateRiskScore_bounds. pose proof (vtGetMockResult_bounds d). lia. }
  unfold vtCheckUrl in Hr.
  destruct hasKey; simpl in Hr; [|by injection Hr as <-].
  destruct resp as [| |status [b|]]; simpl in Hr; try (injection Hr as <-; done).
  - destruct (status =? 429)%Z; [discriminate|].
    destruct (status =? 404)%Z; [injection Hr as <-; done|].
    destruct (negb (ok_status status)); [injection Hr as <-; done|].
    destruct (vb_error b); [injection Hr as <-; done|].
    simpl in Hnn. destruct (vb_attributes b) as [[st|]|]; injection Hr as <-; try done;
      simpl; apply calculateRiskScore_bounds; unfold vtDetectionCount, vtEnginesCount;
      simpl; lia.
  - destruct (status =? 429)%Z; [discriminate|].
    destruct (status =? 404)%Z; [injection Hr as <-; done|].
    destruct (negb (ok_status status)); injection Hr as <-; done.
Qed.


End VirusTotalProps.

Module RouteFacts.
Import Types Retry Check Adapters CheckFacts AdapterFacts.




Definition rank (l : RiskLevel) : nat :=
  match l with Safe => 0 | Low => 1 | Medium => 2 | High => 3 | Dangerous => 4 end.

End RouteFacts.

Module RouteProps.
Import Types Retry Check Adapters CheckFacts RouteFacts.
Open Scope Q_scope.



(** A fresh riskScore lies between the smallest and the largest score of
    the sources that answered; in particular it is within [0,100] when
    theirs are. *)
Theorem post_score_between (t t' : Cache.db) (now ct : Z) (url url' dom : string)
    (vtS gsbS : settled) (s : Q) (lvl : RiskLevel) (srcs : list SourceResult) (lo hi : Q)
    (Hpost : post t now url dom vtS gsbS = (CheckResponse url' s lvl srcs false ct, t'))
    (Hb : Forall (fun r => lo <= riskScore r <= hi) (succeeded [vtS; gsbS])) :
  lo <= s <= hi.
Proof.
  unfold post in Hpost. destruct (Cache.getCachedResult t dom now); [discriminate|].
  destruct vtS as [v|e1], gsbS as [g|e2]; simpl in Hpost, Hb; try discriminate;
    injection Hpost as _ <- _ _ _ _;
    repeat match goal with H : Forall _ (_ :: _) |- _ => inversion_clear H end;
    unfold meanScore; simpl; unfold Qdiv;
    change (/ inject_Z (Z.of_nat 2)) with (1#2);
    change (/ inject_Z (Z.of_nat 1)) with (1#1); lra.
Qed.

(** [getRiskLevel] is monotone: a higher score never gets a lower band. *)
Theorem getRiskLevel_monotone (s1 s2 : Q) (Hle : s1 <= s2) :
  (rank (getRiskLevel s1) <= rank (getRiskLevel s2))%nat.
Proof.
  destruct (getRiskLevel_cases s1) as [[H1 ->]|[[H1 ->]|[[H1 ->]|[[H1 ->]|[H1 ->]]]]];
  destruct (getRiskLevel_cases s2) as [[H2 ->]|[[H2 ->]|[[H2 ->]|[[H2 ->]|[H2 ->]]]]];
  simpl; try lia; lra.
Qed.

(** A cache read only returns an entry of the requested domain that has
    not expired, whatever the table holds. *)
Theorem getCachedResult_fresh_only (t : Cache.db) (d : string) (now : Z)
    (c : Cache.CachedCheck)
    (Hc : Cache.getCachedResult t d now = Some c) :
  Cache.cc_domain c = d /\ (now <= Cache.cc_expiresAt c)%Z.
Proof.
  unfold Cache.getCachedResult in Hc.
  destruct (Cache.select_domain d t) as [|r rs] eqn:Hs; [discriminate|].
  destruct (Cache.isExpired now r) eqn:He; [discriminate|].
  injection Hc as <-. simpl. unfold Cache.isExpired in He. apply Z.ltb_ge in He.
  split; [|done].
  assert (Hin : r ∈ Cache.select_domain d t) by (rewrite Hs; left).
  unfold Cache.select_domain in Hin. apply list_elem_of_filter in Hin. tauto.
Qed.

End RouteProps.

Module RateLimitMoreFacts.
Import RateLimit RateLimitFacts Sweep.
Open Scope Z_scope.

(** The outcomes that [run] gives to the requests of client [k]. *)
Definition client_outcomes (k : string) (reqs : list (Z * headers)) (os : list outcome)
    : list outcome :=
  map snd (filter (fun p => getClientIp (snd (fst p)) = k) (zip reqs os)).

(** Every entry has a non-negative counter and a window ending at most
    [WINDOW] after [now]: what the middleware leaves behind when the
    requests come in time order. *)
Definition windows_ok (store : gmap string RateLimitEntry) (now : Z) : Prop :=
  forall k e, store !! k = Some e -> 0 <= count e /\ resetTime e <= now + WINDOW.

Lemma client_outcomes_cons (k : string) (t : Z) (h : headers) (reqs : list (Z * headers))
    (o : outcome) (os : list outcome) :
  client_outcomes k ((t, h) :: reqs) (o :: os)
  = (if decide (getClientIp h = k) then [o] else []) ++ client_outcomes k reqs os.
Proof.
  unfold client_outcomes. cbn [zip zip_with]. rewrite filter_cons.
  simpl. by repeat case_decide.
Qed.

Lemma run_isolated (k : string) (reqs : list (Z * headers)) :
  forall s1 s2 : gmap string RateLimitEntry, s1 !! k = s2 !! k ->
  client_outcomes k reqs (snd (run s1 reqs))
    = snd (run s2 (filter (fun th => getClientIp (snd th) = k) reqs)) /\
  fst (run s1 reqs) !! k = fst (run s2 (filter (fun th => getClientIp (snd th) = k) reqs)) !! k.
Proof.
  induction reqs as [|[t h] reqs IH]; intros s1 s2 Hs; [done|].
  rewrite filter_cons, run_cons, rateLimitMiddleware_eq. simpl snd.
  case_decide as Hk.
  - rewrite run_cons, rateLimitMiddleware_eq. simpl in Hk. rewrite Hk, <- Hs.
    destruct (IH (<[k:=next_entry (s1 !! k) t]> s1) (<[k:=next_entry (s1 !! k) t]> s2))
      as [IH1 IH2]; [by rewrite !lookup_insert_eq|].
    destruct (run (<[k:=next_entry (s1 !! k) t]> s1) reqs) as [a os].
    destruct (run (<[k:=next_entry (s1 !! k) t]> s2) _) as [b os'].
    simpl in *. rewrite client_outcomes_cons, decide_True by done. simpl. by rewrite IH1.
  - simpl in Hk.
    destruct (IH (<[getClientIp h:=next_entry (s1 !! getClientIp h) t]> s1) s2)
      as [IH1 IH2]; [by rewrite lookup_insert_ne|].
    destruct (run (<[getClientIp h:=next_entry (s1 !! getClientIp h) t]> s1) reqs) as [a os].
    simpl in *. rewrite client_outcomes_cons, decide_False by done. done.
Qed.

Lemma next_entry_bounds (store : gmap string RateLimitEntry) (now : Z) (ip : string) :
  windows_ok store now ->
  1 <= count (next_entry (store !! ip) now) /\
  now <= resetTime (next_entry (store !! ip) now) <= now + WINDOW.
Proof.
  intros Hok. unfold next_entry. destruct (store !! ip) as [e|] eqn:He.
  - destruct (Hok _ _ He). destruct (Z.ltb (resetTime e) now) eqn:Hr; simpl.
    + unfold WINDOW; lia.
    + apply Z.ltb_ge in Hr. lia.
  - simpl. unfold WINDOW; lia.
Qed.

Lemma ceil_div1000_bounds (x : Z) :
  0 <= x <= 60000 -> 0 <= ceil_div1000 x <= 60.
Proof.
  intros Hx. unfold ceil_div1000.
  pose proof (Z.div_mod (- x) 1000 ltac:(lia)).
  pose proof (Z.mod_pos_bound (- x) 1000 ltac:(lia)).
  lia.
Qed.

End RateLimitMoreFacts.

Module RateLimitProps.
Import RateLimit RateLimitFacts Sweep RateLimitMoreFacts.
Open Scope Z_scope.

(** Clients are isolated: in any sequence of requests, the outcomes of
    the requests of one client, and the entry it is left with, are those
    of the same requests sent alone; other clients' requests in between
    change nothing for it. *)
Theorem rate_limit_client_isolation (store : gmap string RateLimitEntry)
    (reqs : list (Z * headers)) (k : string) :
  client_outcomes k reqs (snd (run store reqs))
    = snd (run store (filter (fun th => getClientIp (snd th) = k) reqs)) /\
  fst (run store reqs) !! k
    = fst (run store (filter (fun th => getClientIp (snd th) = k) reqs)) !! k.
Proof. by apply run_isolated. Qed.

(** The periodic cleanup never changes what a client sees: sweeping at
    [t0] and then serving a request at [now >= t0] gives the outcome of
    serving it on the unswept store, and the same store as sweeping
    afterwards. The entries it deletes have windows that already ended. *)
Theorem sweep_invisible (store : gmap string RateLimitEntry) (t0 now : Z) (h : headers)
    (Hle : t0 <= now) :
  rateLimitMiddleware (sweep store t0) now h
  = (sweep (fst (rateLimitMiddleware store now h)) t0, snd (rateLimitMiddleware store now h)).
Proof.
  rewrite !rateLimitMiddleware_eq. cbn [fst snd].
  set (ip := getClientIp h).
  assert (Hn : next_entry (sweep store t0 !! ip) now = next_entry (store !! ip) now).
  { unfold sweep. rewrite map_lookup_filter.
    destruct (store !! ip) as [e|]; simpl; [|done].
    case_guard as Hg; simpl; [done|].
    assert (Hr : Z.ltb (resetTime e) now = true) by (apply Z.ltb_lt; unfold WINDOW in *; lia).
    by rewrite Hr. }
  rewrite Hn. f_equal. unfold sweep. rewrite map_filter_insert_True; [done|].
  simpl. unfold next_entry. destruct (store !! ip) as [e|]; simpl.
  - destruct (Z.ltb (resetTime e) now) eqn:Hr; simpl.
    + unfold WINDOW; lia.
    + apply Z.ltb_ge in Hr. unfold WINDOW; lia.
  - unfold WINDOW; lia.
Qed.

(** On a store whose windows all end within [WINDOW] of [now] (true of
    any store the middleware built from requests in time order), a
    request gets the limit header 60, a remaining count in [0, 59], and
    when rejected a remaining count 0 and a Retry-After between 0 and 60
    seconds; the store it leaves behind keeps the same bound. *)
Theorem rate_limit_headers_bounded (store store' : gmap string RateLimitEntry) (now : Z)
    (h : headers) (o : outcome)
    (Hok : windows_ok store now)
    (Hstep : rateLimitMiddleware store now h = (store', o)) :
  windows_ok store' now /\ limitHeader o = 60 /\ 0 <= remainingHeader o <= 59 /\
  (forall ra l, result o = TooMany ra l -> l = 60 /\ remainingHeader o = 0 /\ 0 <= ra <= 60).
Proof.
  rewrite rateLimitMiddleware_eq in Hstep. injection Hstep as <- <-.
  destruct (next_entry_bounds store now (getClientIp h) Hok) as [Hc Hr].
  set (e := next_entry (store !! getClientIp h) now) in *.
  split; [|split; [done|split]].
  - intros k e' Hk. apply lookup_insert_Some in Hk as [[_ <-]|[_ Hk]].
    + lia.
    + by apply Hok in Hk.
  - simpl. unfold LIMIT. lia.
  - intros ra l. unfold outcome_of; simpl.
    destruct (Z.leb (count e) LIMIT) eqn:Hl; [discriminate|].
    intros Heq. injection Heq as <- <-. apply Z.leb_gt in Hl. unfold LIMIT in *.
    split; [done|split; [lia|]]. apply ceil_div1000_bounds. unfold WINDOW in Hr. lia.
Qed.

End RateLimitProps.

Module ExtraWitnesses.
Import Types Retry Check Adapters Cache RateLimit Sweep.
Import RetryMore AdapterProps VirusTotalProps RouteFacts RouteProps.
Import RateLimitMoreFacts RateLimitProps.

Lemma retry_first_success_witness :
  fst (retryWithBackoff (fun k => if Nat.eqb k 1 then Ok (E := error) 7%nat
                                  else Err (NetworkError "503")) gsbRetryOptions) = Ok 7%nat /\
  calls (snd (retryWithBackoff (fun k => if Nat.eqb k 1 then Ok (E := error) 7%nat
                                         else Err (NetworkError "503")) gsbRetryOptions)) = 2%nat /\
  sleeps (snd (retryWithBackoff (fun k => if Nat.eqb k 1 then Ok (E := error) 7%nat
                                          else Err (NetworkError "503")) gsbRetryOptions))
    = map (fun i => (initialDelayMs gsbRetryOptions * factor gsbRetryOptions ^ Z.of_nat i)%Z)
        (seq 0 1).
Proof.
  apply (retry_first_success (fun k => if Nat.eqb k 1 then Ok (E := error) 7%nat
                                        else Err (NetworkError "503"))
           gsbRetryOptions 1 7%nat (fun _ => NetworkError "503")).
  - simpl. lia.
  - intros j Hj. assert (j = 0%nat) as -> by lia. split; reflexivity.
  - reflexivity.
Defined.

Lemma gsb_transient_falls_back_witness :
  fst (gsbCheckUrlHttp true (fun _ => Aborted) "example.com")
    = Fulfilled (gsbGetMockResult "example.com") /\
  calls (snd (gsbCheckUrlHttp true (fun _ => Aborted) "example.com")) = 3%nat /\
  sleeps (snd (gsbCheckUrlHttp true (fun _ => Aborted) "example.com")) = [1000%Z; 2000%Z].
Proof.
  apply (gsb_transient_falls_back (fun _ => Aborted) "example.com").
  intros k. left. reflexivity.
Defined.

Lemma gsb_threat_scoring_witness :
  riskScore (gsbReport "example.com" ["SOCIAL_ENGINEERING"; "MALWARE"]) = 90%Q /\
  getRiskLevel (riskScore (gsbReport "example.com" ["SOCIAL_ENGINEERING"; "MALWARE"]))
    = Dangerous.
Proof.
  destruct (gsb_threat_scoring "example.com" ["SOCIAL_ENGINEERING"; "MALWARE"])
    as (_ & _ & H3).
  apply H3. right. left. reflexivity.
Defined.

Lemma gsb_mock_tiers_witness :
  isHighRisk "ads.example.com" = true /\
  (getRiskLevel (riskScore (gsbGetMockResult "ads.example.com")) = High \/
   getRiskLevel (riskScore (gsbGetMockResult "ads.example.com")) = Dangerous).
Proof.
  split; [reflexivity|].
  destruct (gsb_mock_tiers "ads.example.com") as (_ & _ & H3).
  apply H3. reflexivity.
Defined.

Lemma vt_score_in_range_witness :
  (0 <= riskScore (mkReport "example.com" (calculateRiskScore 4 84)) <= 100)%Q.
Proof.
  apply (vt_score_in_range true
           (HttpResponse 200 (Some (mkVtBody None
              (Some (Some (mkVtStats (Some 3%Z) (Some 1%Z) (Some 60%Z) (Some 20%Z)))))))
           "example.com").
  - simpl. lia.
  - reflexivity.
Defined.




Lemma post_score_between_witness :
  (20 <= meanScore (collectScores (Some (mkReport "example.com" 20))
                                  (Some (mkReport "example.com" 40))) <= 40)%Q.
Proof.
  apply (post_score_between (mkDb [] 0)
           (setCachedResult (mkDb [] 0) "example.com" (Some (mkReport "example.com" 20))
              (Some (mkReport "example.com" 40))
              (meanScore (collectScores (Some (mkReport "example.com" 20))
                                        (Some (mkReport "example.com" 40)))) 0%Z)
           0%Z 0%Z "https://example.com/" "https://example.com/" "example.com"
           (Fulfilled (mkReport "example.com" 20)) (Fulfilled (mkReport "example.com" 40))
           _ (getRiskLevel (meanScore (collectScores (Some (mkReport "example.com" 20))
                                                   (Some (mkReport "example.com" 40)))))
           [buildVirusTotalSource (Some (mkReport "example.com" 20));
            buildGoogleSafeBrowsingSource (Some (mkReport "example.com" 40))]).
  - reflexivity.
  - simpl. repeat constructor; simpl; lra.
Defined.

Lemma getRiskLevel_monotone_witness :
  (rank (getRiskLevel 25) <= rank (getRiskLevel 70))%nat.
Proof. apply getRiskLevel_monotone. lra. Defined.

Lemma getCachedResult_fresh_only_witness :
  cc_domain (mkCachedCheck "example.com" (Some (mkReport "example.com" 20)) None 20 1000
               (1000 + DEFAULT_TTL)) = "example.com" /\
  (2000 <= cc_expiresAt (mkCachedCheck "example.com" (Some (mkReport "example.com" 20)) None 20
                          1000 (1000 + DEFAULT_TTL)))%Z.
Proof.
  apply (getCachedResult_fresh_only
           (setCachedResult (mkDb [] 0) "example.com" (Some (mkReport "example.com" 20)) None
              20 1000) "example.com" 2000).
  vm_compute. reflexivity.
Defined.

Lemma sweep_invisible_witness :
  rateLimitMiddleware (sweep (<["1.2.3.4" := mkEntry 5 1000]> ∅) 70000) 80000
    [("x-forwarded-for", "1.2.3.4")]
  = (sweep (fst (rateLimitMiddleware (<["1.2.3.4" := mkEntry 5 1000]> ∅) 80000
                  [("x-forwarded-for", "1.2.3.4")])) 70000,
     snd (rateLimitMiddleware (<["1.2.3.4" := mkEntry 5 1000]> ∅) 80000
            [("x-forwarded-for", "1.2.3.4")])).
Proof.
  apply (sweep_invisible (<["1.2.3.4" := mkEntry 5 1000]> ∅) 70000 80000
           [("x-forwarded-for", "1.2.3.4")]).
  lia.
Defined.

Lemma rate_limit_headers_bounded_witness :
  windows_ok (fst (rateLimitMiddleware (<["1.2.3.4" := mkEntry 60 50000]> ∅) 20000
                     [("x-forwarded-for", "1.2.3.4")])) 20000 /\
  limitHeader (snd (rateLimitMiddleware (<["1.2.3.4" := mkEntry 60 50000]> ∅) 20000
                      [("x-forwarded-for", "1.2.3.4")])) = 60 /\
  (0 <= remainingHeader (snd (rateLimitMiddleware (<["1.2.3.4" := mkEntry 60 50000]> ∅) 20000
                               [("x-forwarded-for", "1.2.3.4")])) <= 59)%Z /\
  (forall ra l, result (snd (rateLimitMiddleware (<["1.2.3.4" := mkEntry 60 50000]> ∅) 20000
                               [("x-forwarded-for", "1.2.3.4")])) = TooMany ra l ->
     l = 60 /\ remainingHeader (snd (rateLimitMiddleware (<["1.2.3.4" := mkEntry 60 50000]> ∅)
                                       20000 [("x-forwarded-for", "1.2.3.4")])) = 0 /\
     (0 <= ra <= 60)%Z).
Proof.
  apply (rate_limit_headers_bounded (<["1.2.3.4" := mkEntry 60 50000]> ∅) _ 20000
           [("x-forwarded-for", "1.2.3.4")]).
  - intros k e Hk. apply lookup_insert_Some in Hk as [[_ <-]|[_ Hk]].
    + simpl. unfold WINDOW. lia.
    + by rewrite lookup_empty in Hk.
  - apply surjective_pairing.
Defined.

End ExtraWitnesses.
